(** * p11_cert.c: certificates residing on a PKCS#11 token

    A shallow embedding of [src/p11_cert.c] of libp11.  The PKCS#11 module,
    the session helpers of [p11_slot.c] and the attribute helpers of
    [p11_attr.c] are external to this file: their outcomes are collected in
    an environment record [env], and the calls the core makes on the module
    are logged as [event]s so that the session discipline can be stated. *)

From Stdlib Require Import ZArith List Bool Lia.
From Stdlib Require String.
Import String.StringSyntax.
Import ListNotations.
Open Scope Z_scope.

(** ** PKCS#11 and OpenSSL constants (pkcs11.h, obj_mac.h) *)

Definition CKR_OK : Z := 0.
Definition CKO_CERTIFICATE : Z := 1.
Definition CKC_X_509 : Z := 0.
Definition CKC_WTLS : Z := 2.

Definition CKA_CLASS : Z := 0x0.
Definition CKA_TOKEN : Z := 0x1.
Definition CKA_LABEL : Z := 0x3.
Definition CKA_VALUE : Z := 0x11.
Definition CKA_CERTIFICATE_TYPE : Z := 0x80.
Definition CKA_ISSUER : Z := 0x81.
Definition CKA_HASH_OF_SUBJECT_PUBLIC_KEY : Z := 0x8B.
Definition CKA_NAME_HASH_ALGORITHM : Z := 0x8C.
Definition CKA_SUBJECT : Z := 0x101.
Definition CKA_ID : Z := 0x102.

Definition CKM_SHA_1 : Z := 0x220.
Definition CKM_SHA256 : Z := 0x250.
Definition CKM_SHA224 : Z := 0x255.
Definition CKM_SHA384 : Z := 0x260.
Definition CKM_SHA512 : Z := 0x270.
Definition CKM_SHA3_256 : Z := 0x2B0.
Definition CKM_SHA3_224 : Z := 0x2B5.
Definition CKM_SHA3_384 : Z := 0x2C0.
Definition CKM_SHA3_512 : Z := 0x2D0.

Definition NID_sha1 : Z := 64.
Definition NID_sha256 : Z := 672.
Definition NID_sha384 : Z := 673.
Definition NID_sha512 : Z := 674.
Definition NID_sha224 : Z := 675.
Definition NID_sha3_224 : Z := 1096.
Definition NID_sha3_256 : Z := 1097.
Definition NID_sha3_384 : Z := 1098.
Definition NID_sha3_512 : Z := 1099.

(** ** Attributes, token objects and templates *)

(** The value of a [CK_ATTRIBUTE] as the helpers of [p11_attr.c] build it:
    [pkcs11_addattr_int], [pkcs11_addattr_bool], [pkcs11_addattr] /
    [pkcs11_addattr_obj] (bytes) and [pkcs11_addattr_s] (string). *)
Inductive aval :=
| VInt (v : Z)
| VBool (b : bool)
| VBytes (bs : list Z)
| VStr (s : String.string).

Definition attribute := (Z * aval)%type.

Definition aval_eqb (a b : aval) : bool :=
  match a, b with
  | VInt x, VInt y => Z.eqb x y
  | VBool x, VBool y => Bool.eqb x y
  | VBytes x, VBytes y => if list_eq_dec Z.eq_dec x y then true else false
  | VStr x, VStr y => String.eqb x y
  | _, _ => false
  end.

(** An object on the token: its handle and its attributes. *)
Record obj := mkobj {
  o_handle : Z;
  o_attrs : list attribute
}.

Definition getattr (o : obj) (t : Z) : option aval :=
  match find (fun a => Z.eqb (fst a) t) (o_attrs o) with
  | Some (_, v) => Some v
  | None => None
  end.

(** [C_FindObjectsInit] selects the objects that carry every attribute of
    the template with the same value, in the token's find order. *)
Definition obj_matches (tmpl : list attribute) (o : obj) : bool :=
  forallb (fun a => match getattr o (fst a) with
                    | Some v => aval_eqb v (snd a)
                    | None => false
                    end) tmpl.

Definition matching (tmpl : list attribute) (objs : list obj) : list obj :=
  filter (obj_matches tmpl) objs.

Definition lookup_obj (objs : list obj) (h : Z) : option obj :=
  find (fun o => Z.eqb (o_handle o) h) objs.

(** ** The certificate record and the cache *)

(** [PKCS11_CERT] together with its [PKCS11_CERT_private]: the object
    handle, the id bytes (their number is [id_len]), the label, and the
    decoded certificate (kept here as its DER bytes when [d2i_X509]
    succeeds). *)
Record cert := mkcert {
  c_handle : Z;
  c_id : list Z;
  c_label : option String.string;
  c_x509 : option (list Z)
}.

Definition c_id_len (c : cert) : nat := length (c_id c).

(** The input certificate of [pkcs11_store_certificate]: DER of the subject
    and issuer names, the signature NID and the DER of the whole
    certificate. *)
Record x509 := mkx509 {
  x_subject : list Z;
  x_issuer : list Z;
  x_sig_nid : Z;
  x_der : list Z
}.

(** Calls on the PKCS#11 module and on the session helpers, in the order the
    core issues them. *)
Inductive event :=
| EvAcquire (rw : bool)
| EvRelease
| EvFindInit (tmpl : list attribute)
| EvFind
| EvFindFinal
| EvCreate (tmpl : list attribute)
| EvDestroy (h : Z).

(** The outcomes of the external collaborators. *)
Record env := mkenv {
  e_session_ok : bool;               (* pkcs11_get_session succeeds *)
  e_find_init_rv : Z;                (* rv of C_FindObjectsInit *)
  e_find_rv : nat -> Z;              (* rv of the k-th C_FindObjects call *)
  e_alloc_ok : nat -> bool;          (* malloc/realloc with ncerts records *)
  e_d2i_ok : list Z -> bool;         (* d2i_X509 decodes these bytes *)
  e_create_rv : Z;                   (* rv of C_CreateObject *)
  e_create_handle : Z;               (* handle returned by C_CreateObject *)
  e_destroy_rv : Z;                  (* rv of C_DestroyObject *)
  e_destroy_done : bool;             (* the module destroyed the object even
                                        though C_DestroyObject failed, e.g.
                                        before a transport error *)
  e_sigid_algs : Z -> option Z;      (* OBJ_find_sigid_algs: digest NID *)
  e_pubkey_digest : x509 -> Z -> option (list Z)
                                     (* X509_pubkey_digest under a NID *)
}.

(** The token structure: its certificate cache ([certs], [ncerts] being its
    length), the objects on the token, and the log of module calls. *)
Record st := mkst {
  certs : list cert;
  tok : list obj;
  trace : list event
}.

Definition emit (ev : event) (s : st) : st :=
  mkst (certs s) (tok s) (trace s ++ [ev]).

Definition set_certs (cs : list cert) (s : st) : st :=
  mkst cs (tok s) (trace s).

Definition set_tok (os : list obj) (s : st) : st :=
  mkst (certs s) os (trace s).

Fixpoint upd_nth {A} (i : nat) (x : A) (l : list A) : list A :=
  match l, i with
  | [], _ => []
  | _ :: l', O => x :: l'
  | y :: l', S i' => y :: upd_nth i' x l'
  end.

(** ** Helpers of this library that live outside [p11_cert.c] *)

(** Modelled from the spec: [CRYPTOKI_checkerr] (libp11-int.h).  A token
    call failure is surfaced: a non-zero [rv] makes the enclosing function
    return -1; [CKR_OK] lets it continue. *)
Definition CRYPTOKI_checkerr (rv : Z) : bool := negb (Z.eqb rv CKR_OK).

(** Modelled from the spec: the size of the [id] buffer of
    [PKCS11_CERT_private] (libp11-int.h). *)
Definition PKCS11_ID_SIZE : nat := 255.

(** Modelled from the spec: [pkcs11_getattr_var] on [CKA_CERTIFICATE_TYPE]
    (p11_attr.c).  It fails when the object or the attribute is absent. *)
Definition getattr_cert_type (objs : list obj) (h : Z) : option Z :=
  match lookup_obj objs h with
  | Some o => match getattr o CKA_CERTIFICATE_TYPE with
              | Some (VInt t) => Some t
              | _ => None
              end
  | None => None
  end.

(** Modelled from the spec: [pkcs11_getattr_var] on [CKA_ID] into the
    fixed-size id buffer; it fails when the attribute is absent or does not
    fit. *)
Definition getattr_id (objs : list obj) (h : Z) : option (list Z) :=
  match lookup_obj objs h with
  | Some o => match getattr o CKA_ID with
              | Some (VBytes l) =>
                  if Nat.leb (length l) PKCS11_ID_SIZE then Some l else None
              | _ => None
              end
  | None => None
  end.

(** Modelled from the spec: [pkcs11_getattr_alloc] on [CKA_LABEL]. *)
Definition getattr_label (objs : list obj) (h : Z) : option String.string :=
  match lookup_obj objs h with
  | Some o => match getattr o CKA_LABEL with
              | Some (VStr l) => Some l
              | _ => None
              end
  | None => None
  end.

(** Modelled from the spec: [pkcs11_getattr_alloc] on [CKA_VALUE]. *)
Definition getattr_value (objs : list obj) (h : Z) : option (list Z) :=
  match lookup_obj objs h with
  | Some o => match getattr o CKA_VALUE with
              | Some (VBytes d) => Some d
              | _ => None
              end
  | None => None
  end.

(** ** pkcs11_init_cert *)

(** Returns the status, the record stored through [ret] (only when a record
    is inserted) and the new state. *)
Definition pkcs11_init_cert (e : env) (obj_h : Z) (s : st)
  : Z * option cert * st :=
  (* Ignore unknown certificate types *)
  match getattr_cert_type (tok s) obj_h with
  | None => (-1, None, s)
  | Some cert_type =>
    if negb (Z.eqb cert_type CKC_X_509) then (0, None, s) else
    (* Prevent re-adding existing PKCS#11 object handles *)
    if existsb (fun c => Z.eqb (c_handle c) obj_h) (certs s) then (0, None, s) else
    (* Allocate memory *)
    if negb (e_alloc_ok e (length (certs s))) then (-1, None, s) else
    let id := match getattr_id (tok s) obj_h with
              | Some l => l
              | None => []          (* cpriv->id_len = 0 *)
              end in
    let label := getattr_label (tok s) obj_h in
    let x := match getattr_value (tok s) obj_h with
             | Some data => if e_d2i_ok e data then Some data else None
             | None => None
             end in
    let c := mkcert obj_h id label x in
    (0, Some c, set_certs (certs s ++ [c]) s)
  end.

(** ** pkcs11_find_certs / pkcs11_next_cert *)

Definition cert_search_attrs : list attribute :=
  [(CKA_CLASS, VInt CKO_CERTIFICATE)].

(** The [do ... while (res == 0)] loop around [pkcs11_next_cert]; [k] counts
    the [C_FindObjects] calls, [rest] are the matches the module has not yet
    returned.  The result is the last [res] of the loop: 1 or -1. *)
Fixpoint next_cert_loop (e : env) (k : nat) (rest : list obj) (s : st) : Z * st :=
  let s := emit EvFind s in
  if CRYPTOKI_checkerr (e_find_rv e k) then (-1, s) else
  match rest with
  | [] => (1, s)                                (* count == 0 *)
  | o :: rest' =>
    let '(r, _, s) := pkcs11_init_cert e (o_handle o) s in
    if negb (Z.eqb r 0) then (-1, s)
    else next_cert_loop e (S k) rest' s
  end.

Definition pkcs11_find_certs (e : env) (s : st) : Z * st :=
  let s := emit (EvFindInit cert_search_attrs) s in
  if CRYPTOKI_checkerr (e_find_init_rv e) then (-1, s) else
  let ms := matching cert_search_attrs (tok s) in
  let '(res, s) := next_cert_loop e 0 ms s in
  let s := emit EvFindFinal s in
  (if res <? 0 then -1 else 0, s).

(** ** pkcs11_destroy_certs *)

(** The [while (token->ncerts > 0)] loop frees the last record and drops it;
    the backing array is then released and [certs] reset. *)
Fixpoint destroy_loop (ncerts : nat) (cs : list cert) : list cert :=
  match ncerts with
  | O => cs
  | S n => destroy_loop n (removelast cs)
  end.

Definition pkcs11_destroy_certs (s : st) : st :=
  let _ := destroy_loop (length (certs s)) (certs s) in
  set_certs [] s.

(** ** pkcs11_enumerate_certs *)

Definition pkcs11_enumerate_certs (e : env) (s : st) : Z * st :=
  if negb (e_session_ok e) then (-1, s) else
  let s := emit (EvAcquire false) s in
  let '(rv, s) := pkcs11_find_certs e s in
  let s := emit EvRelease s in
  if rv <? 0 then (-1, pkcs11_destroy_certs s)
  else (0, s).

(** ** pkcs11_remove_certificate *)

Definition pkcs11_remove_certificate (e : env) (c : cert) (s : st) : Z * st :=
  if negb (e_session_ok e) then (-1, s) else
  let s := emit (EvAcquire true) s in
  let rv := e_destroy_rv e in
  let s := emit (EvDestroy (c_handle c)) s in
  (* The token side of C_DestroyObject belongs to the module: the object is
     gone when rv is CKR_OK, and may be gone after a failure too. *)
  let s := if Z.eqb rv CKR_OK || e_destroy_done e
           then set_tok (filter (fun o => negb (Z.eqb (o_handle o) (c_handle c))) (tok s)) s
           else s in
  let s := emit EvRelease s in
  if CRYPTOKI_checkerr rv then (-1, s) else (0, s).

(** ** pkcs11_find_certificate *)

(** [!memcmp(a, b, n)]: the first [n] bytes agree. *)
Definition memcmp_eq (a b : list Z) (n : nat) : bool :=
  if list_eq_dec Z.eq_dec (firstn n a) (firstn n b) then true else false.

(** A key is represented by its id bytes; [key->id_len] is their number. *)
Fixpoint find_cert_loop (key_id : list Z) (cs : list cert) : option cert :=
  match cs with
  | [] => None
  | c :: cs' =>
    if Nat.eqb (c_id_len c) (length key_id)
       && memcmp_eq (c_id c) key_id (length key_id)
    then Some c
    else find_cert_loop key_id cs'
  end.

Definition pkcs11_find_certificate (e : env) (key_id : list Z) (s : st)
  : option cert * st :=
  let '(rv, s) := pkcs11_enumerate_certs e s in
  if negb (Z.eqb rv 0) then (None, s)
  else (find_cert_loop key_id (certs s), s).

(** ** pkcs11_reload_certificate *)

(** The search template: the class, then [CKA_ID] when [id_len] is not 0,
    then [CKA_LABEL] when the record has a label. *)
Definition reload_search_parameters (c : cert) : list attribute :=
  [(CKA_CLASS, VInt CKO_CERTIFICATE)]
  ++ (if Nat.eqb (c_id_len c) 0 then [] else [(CKA_ID, VBytes (c_id c))])
  ++ (match c_label c with Some l => [(CKA_LABEL, VStr l)] | None => [] end).

(** [C_FindObjects(session, &cert->object, 1, &count)]: the module writes at
    most one handle, the first match, into [cert->object]. *)
Definition find_objects_1 (ms : list obj) (c : cert) : cert * Z :=
  match ms with
  | [] => (c, 0)
  | o :: _ => (mkcert (o_handle o) (c_id c) (c_label c) (c_x509 c), 1)
  end.

(** The record is addressed by its index [i] in the cache. *)
Definition pkcs11_reload_certificate (e : env) (i : nat) (s : st) : Z * st :=
  match nth_error (certs s) i with
  | None => (-1, s)            (* [cert] is not a record of the cache *)
  | Some c =>
    if negb (e_session_ok e) then (-1, s) else
    let s := emit (EvAcquire false) s in
    let search_parameters := reload_search_parameters c in
    let s := emit (EvFindInit search_parameters) s in
    let rv := e_find_init_rv e in
    let '(rv, count, s) :=
      if Z.eqb rv CKR_OK then
        let s := emit EvFind s in
        let rv := e_find_rv e 0 in
        let '(c', count) :=
          if Z.eqb rv CKR_OK then find_objects_1 (matching search_parameters (tok s)) c
          else (c, 0) in
        let s := set_certs (upd_nth i c' (certs s)) s in
        let s := emit EvFindFinal s in
        (rv, count, s)
      else (rv, 0, s) in
    let s := emit EvRelease s in
    if CRYPTOKI_checkerr rv then (-1, s) else
    if negb (Z.eqb count 1) then (-1, s) else (0, s)
  end.

(** ** pkcs11_store_certificate *)

(** The [switch (evp_md_nid)] of [pkcs11_store_certificate]: [sigid] is the
    outcome of [OBJ_find_sigid_algs] ([None] when it fails, in which case
    [evp_md_nid] keeps its initial [NID_sha1]).  The result is the pair
    [(evp_md_nid, ckm_md)]. *)
Definition pkcs11_select_digest (sigid : option Z) : Z * Z :=
  let evp_md_nid := match sigid with Some d => d | None => NID_sha1 end in
  if Z.eqb evp_md_nid NID_sha1 then (NID_sha1, CKM_SHA_1)
  else if Z.eqb evp_md_nid NID_sha224 then (NID_sha224, CKM_SHA224)
  else if Z.eqb evp_md_nid NID_sha256 then (NID_sha256, CKM_SHA256)
  else if Z.eqb evp_md_nid NID_sha512 then (NID_sha512, CKM_SHA512)
  else if Z.eqb evp_md_nid NID_sha384 then (NID_sha384, CKM_SHA384)
  else if Z.eqb evp_md_nid NID_sha3_224 then (NID_sha3_224, CKM_SHA3_224)
  else if Z.eqb evp_md_nid NID_sha3_256 then (NID_sha3_256, CKM_SHA3_256)
  else if Z.eqb evp_md_nid NID_sha3_384 then (NID_sha3_384, CKM_SHA3_384)
  else if Z.eqb evp_md_nid NID_sha3_512 then (NID_sha3_512, CKM_SHA3_512)
  else (NID_sha1, CKM_SHA_1).             (* default: evp_md_nid = NID_sha1 *)

(** The template built by [pkcs11_store_certificate] and passed to
    [C_CreateObject]; [id] stands for [(id, id_len)]. *)
Definition store_template (e : env) (x : x509) (label : option String.string)
  (id : list Z) : list attribute :=
  let '(evp_md_nid, ckm_md) := pkcs11_select_digest (e_sigid_algs e (x_sig_nid x)) in
  [(CKA_CLASS, VInt CKO_CERTIFICATE);
   (CKA_TOKEN, VBool true);
   (CKA_CERTIFICATE_TYPE, VInt CKC_X_509);
   (CKA_SUBJECT, VBytes (x_subject x));
   (CKA_ISSUER, VBytes (x_issuer x));
   (CKA_NAME_HASH_ALGORITHM, VInt ckm_md)]
  ++ (match e_pubkey_digest e x evp_md_nid with
      | Some md => [(CKA_HASH_OF_SUBJECT_PUBLIC_KEY, VBytes md)]
      | None => []
      end)
  ++ [(CKA_VALUE, VBytes (x_der x))]
  ++ (match label with Some l => [(CKA_LABEL, VStr l)] | None => [] end)
  ++ (match id with [] => [] | _ => [(CKA_ID, VBytes id)] end).

Definition pkcs11_store_certificate (e : env) (x : x509)
  (label : option String.string) (id : list Z) (s : st)
  : Z * option cert * st :=
  if negb (e_session_ok e) then (-1, None, s) else
  let s := emit (EvAcquire true) s in
  let attrs := store_template e x label id in
  let rv := e_create_rv e in
  let object := e_create_handle e in
  let s := emit (EvCreate attrs) s in
  let s := if Z.eqb rv CKR_OK then set_tok (tok s ++ [mkobj object attrs]) s else s in
  (* Gobble the key object *)
  let '(r, ret, s) :=
    if Z.eqb rv CKR_OK then pkcs11_init_cert e object s else (-1, None, s) in
  let s := emit EvRelease s in
  if CRYPTOKI_checkerr rv then (-1, ret, s) else (r, ret, s).

(** ** The public operations *)

Inductive op :=
| OpEnumerate
| OpFind (key_id : list Z)
| OpStore (x : x509) (label : option String.string) (id : list Z)
| OpRemove (c : cert)
| OpReload (i : nat)
| OpDestroy.

Definition run_op (e : env) (o : op) (s : st) : st :=
  match o with
  | OpEnumerate => snd (pkcs11_enumerate_certs e s)
  | OpFind k => snd (pkcs11_find_certificate e k s)
  | OpStore x l id => snd (pkcs11_store_certificate e x l id s)
  | OpRemove c => snd (pkcs11_remove_certificate e c s)
  | OpReload i => snd (pkcs11_reload_certificate e i s)
  | OpDestroy => pkcs11_destroy_certs s
  end.

(** ** Concrete configurations *)

(** A module on which every call succeeds. *)
Definition env_ok : env :=
  mkenv true CKR_OK (fun _ => CKR_OK) (fun _ => true) (fun _ => true)
        CKR_OK 0x30 CKR_OK false (fun _ => Some NID_sha256) (fun _ _ => Some [7; 7]).

(** The same module when no session can be acquired. *)
Definition env_no_session : env :=
  mkenv false CKR_OK (fun _ => CKR_OK) (fun _ => true) (fun _ => true)
        CKR_OK 0x30 CKR_OK false (fun _ => Some NID_sha256) (fun _ _ => Some [7; 7]).

(** The module fails the second [C_FindObjects] call (CKR_DEVICE_ERROR). *)
Definition env_find_fails : env :=
  mkenv true CKR_OK (fun k => if Nat.eqb k 1 then 0x30 else CKR_OK)
        (fun _ => true) (fun _ => true)
        CKR_OK 0x30 CKR_OK false (fun _ => Some NID_sha256) (fun _ _ => Some [7; 7]).

(** A certificate object of the given type, with an optional id and label. *)
Definition cert_object (h ty : Z) (id : list Z) (label : option String.string) : obj :=
  mkobj h ([(CKA_CLASS, VInt CKO_CERTIFICATE); (CKA_CERTIFICATE_TYPE, VInt ty)]
           ++ (match id with [] => [] | _ => [(CKA_ID, VBytes id)] end)
           ++ (match label with Some l => [(CKA_LABEL, VStr l)] | None => [] end)
           ++ [(CKA_VALUE, VBytes [0x30; 0x82])]).

Definition st_empty (objs : list obj) : st := mkst [] objs [].

Local Open Scope string_scope.

(** Scenario S6: the record of handle 0x10 (id 0x01, label "A"); the token
    now shows the same certificate under handle 0x20. *)
Definition rec_A : cert := mkcert 0x10 [1] (Some "A") (Some [0x30; 0x82]).

Definition st_rotated : st :=
  mkst [rec_A] [cert_object 0x20 CKC_X_509 [1] (Some "A")] [].

(** The token holds two objects matching the search template of [rec_A]. *)
Definition st_rotated_twice : st :=
  mkst [rec_A] [cert_object 0x20 CKC_X_509 [1] (Some "A");
                cert_object 0x21 CKC_X_509 [1] (Some "A")] [].

(** Scenario S2: two X.509 certificates. *)
Definition objs_S2 : list obj :=
  [cert_object 1 CKC_X_509 [1] (Some "A"); cert_object 2 CKC_X_509 [2; 2] None].

(** Scenario S3: an X.509 and a WTLS certificate. *)
Definition objs_S3 : list obj :=
  [cert_object 1 CKC_X_509 [] None; cert_object 3 CKC_WTLS [] None].

(** Two X.509 certificates with neither id nor label. *)
Definition objs_bare : list obj :=
  [cert_object 1 CKC_X_509 [] None; cert_object 2 CKC_X_509 [] None].

(** A cache holding one record without id. *)
Definition st_cached_noid : st := mkst [mkcert 1 [] None None] objs_bare [].

Local Close Scope string_scope.

(** ** The digest table of the spec (section 4.3) *)

(** The spec's table, row by row: the signature's digest NID and the pair
    (digest_id, mechanism_code). *)
Definition spec_digest_table : list (Z * (Z * Z)) :=
  [(NID_sha1, (NID_sha1, CKM_SHA_1));
   (NID_sha224, (NID_sha224, CKM_SHA224));
   (NID_sha256, (NID_sha256, CKM_SHA256));
   (NID_sha384, (NID_sha384, CKM_SHA384));
   (NID_sha512, (NID_sha512, CKM_SHA512));
   (NID_sha3_224, (NID_sha3_224, CKM_SHA3_224));
   (NID_sha3_256, (NID_sha3_256, CKM_SHA3_256));
   (NID_sha3_384, (NID_sha3_384, CKM_SHA3_384));
   (NID_sha3_512, (NID_sha3_512, CKM_SHA3_512))].

(** Anything else, or an unresolvable digest, gives (SHA1, MECH_SHA_1). *)
Definition spec_select_digest (sigid : option Z) : Z * Z :=
  match sigid with
  | Some d =>
    match find (fun row => Z.eqb (fst row) d) spec_digest_table with
    | Some (_, p) => p
    | None => (NID_sha1, CKM_SHA_1)
    end
  | None => (NID_sha1, CKM_SHA_1)
  end.

(** ** Find-by-key as the spec words it *)

(** A record matches a key when its [id_len] equals the key's and its id
    bytes are the key's. *)
Definition spec_key_match (key_id : list Z) (c : cert) : bool :=
  Nat.eqb (c_id_len c) (length key_id)
  && (if list_eq_dec Z.eq_dec (c_id c) key_id then true else false).

(** ** Session discipline *)

Definition is_session_event (ev : event) : bool :=
  match ev with
  | EvAcquire _ | EvRelease => true
  | _ => false
  end.

Definition no_session_event (evs : list event) : bool :=
  forallb (fun ev => negb (is_session_event ev)) evs.

(** The calls an operation issues: none (no session was acquired), or one
    acquisition first, one release last, and no session call in between. *)
Definition session_disciplined (evs : list event) : Prop :=
  evs = [] \/
  exists rw mid, evs = EvAcquire rw :: mid ++ [EvRelease]
                 /\ no_session_event mid = true.

Definition releases_session (s s' : st) : Prop :=
  exists evs, trace s' = trace s ++ evs /\ session_disciplined evs.

Definition run_ops (e : env) (ops : list op) (s : st) : st :=
  fold_left (fun s o => run_op e o s) ops s.

Definition handles (s : st) : list Z := map c_handle (certs s).

(** ** The record [pkcs11_init_cert] builds, and other helpers *)

(** The record [pkcs11_init_cert] fills for handle [h]: the id read into
    the buffer ([id_len] 0 when the read fails), the label, and the decoded
    value. *)
Definition init_record (e : env) (objs : list obj) (h : Z) : cert :=
  mkcert h
    (match getattr_id objs h with Some l => l | None => [] end)
    (getattr_label objs h)
    (match getattr_value objs h with
     | Some data => if e_d2i_ok e data then Some data else None
     | None => None
     end).

(** The object of handle [h] is an X.509 certificate. *)
Definition is_x509_obj (objs : list obj) (h : Z) : bool :=
  match getattr_cert_type objs h with
  | Some t => Z.eqb t CKC_X_509
  | None => false
  end.

(** The module of [env_ok] when no memory can be allocated. *)
(** Every cached id fits the [id] buffer of its record. *)
Definition id_len_bounded (s : st) : Prop :=
  Forall (fun c => (c_id_len c <= PKCS11_ID_SIZE)%nat) (certs s).

Definition env_no_alloc : env :=
  mkenv true CKR_OK (fun _ => CKR_OK) (fun _ => false) (fun _ => true)
        CKR_OK 0x30 CKR_OK false (fun _ => Some NID_sha256) (fun _ _ => Some [7; 7]).

(** Scenario S5: a certificate to store, with label "t" and id AB CD. *)
Definition x509_S5 : x509 := mkx509 [0x31] [0x32] 668 [0x30; 0x82; 0x01].

Local Open Scope string_scope.
Definition label_S5 : option String.string := Some "t".
Local Close Scope string_scope.

(** Basic facts *)

Lemma emit_certs ev s : certs (emit ev s) = certs s.
Proof. reflexivity. Qed.

Lemma emit_tok ev s : tok (emit ev s) = tok s.
Proof. reflexivity. Qed.

(** What [pkcs11_init_cert] does to the state: the token and the log are
    untouched, and the cache either stays as it is or gains one record at
    its end, for an X.509 object whose handle was not cached. *)
Lemma init_cert_effect e h s r ret s' :
  pkcs11_init_cert e h s = (r, ret, s') ->
  tok s' = tok s /\ trace s' = trace s /\
  (certs s' = certs s \/
   (getattr_cert_type (tok s) h = Some CKC_X_509 /\
    ~ In h (handles s) /\
    exists c, c_handle c = h /\ certs s' = certs s ++ [c])).
Proof.
  unfold pkcs11_init_cert.
  destruct (getattr_cert_type (tok s) h) as [t|] eqn:Ht;
    [| intros H; inversion H; subst; auto].
  destruct (negb (t =? CKC_X_509)) eqn:Hx; [intros H; inversion H; subst; auto |].
  destruct (existsb (fun c => c_handle c =? h) (certs s)) eqn:Hd;
    [intros H; inversion H; subst; auto |].
  destruct (negb (e_alloc_ok e (length (certs s)))); [intros H; inversion H; subst; auto |].
  intros H; inversion H; subst; clear H.
  simpl. repeat split; auto. right.
  apply negb_false_iff, Z.eqb_eq in Hx; subst t.
  split; [first [exact Ht | reflexivity] |]. split.
  - unfold handles. intros Hin. apply in_map_iff in Hin as (c & Hc & Hin).
    assert (existsb (fun c => c_handle c =? h) (certs s) = true) as Hc'
      by (apply existsb_exists; exists c; split; [exact Hin | apply Z.eqb_eq; exact Hc]).
    congruence.
  - eexists; split; [| reflexivity]; reflexivity.
Qed.

Section Preservation.

Variable e : env.
Variable P : st -> Prop.

(** [P] survives every call that is not a session call, and every
    [pkcs11_init_cert]. *)
Hypothesis P_emit : forall ev s, is_session_event ev = false -> P s -> P (emit ev s).
Hypothesis P_init : forall h s r ret s',
  P s -> pkcs11_init_cert e h s = (r, ret, s') -> P s'.

Lemma next_cert_loop_preserves rest : forall k s,
  P s -> P (snd (next_cert_loop e k rest s)).
Proof.
  induction rest as [| o rest IH]; intros k s Hs; simpl.
  - destruct (CRYPTOKI_checkerr (e_find_rv e k)); simpl; apply P_emit; auto.
  - destruct (CRYPTOKI_checkerr (e_find_rv e k)); [simpl; apply P_emit; auto |].
    destruct (pkcs11_init_cert e (o_handle o) (emit EvFind s)) as [[r ret] s'] eqn:Hi.
    assert (P s') by (eapply P_init; [apply (P_emit EvFind); [reflexivity | exact Hs] | exact Hi]).
    destruct (negb (r =? 0)); simpl; auto.
Qed.

Lemma find_certs_preserves s : P s -> P (snd (pkcs11_find_certs e s)).
Proof.
  intros Hs. unfold pkcs11_find_certs.
  assert (P (emit (EvFindInit cert_search_attrs) s)) as H1 by (apply P_emit; auto).
  destruct (CRYPTOKI_checkerr (e_find_init_rv e)); [exact H1 |].
  pose proof (next_cert_loop_preserves
                (matching cert_search_attrs (tok (emit (EvFindInit cert_search_attrs) s)))
                0 _ H1) as H2.
  destruct (next_cert_loop e 0 _ _) as [res s']. simpl in *.
  apply P_emit; auto.
Qed.

End Preservation.

(** The cache-level effect of enumerate: every state property that
    [pkcs11_init_cert], the module calls and [pkcs11_destroy_certs] keep is
    kept by [pkcs11_enumerate_certs]. *)
Lemma enumerate_preserves e (P : st -> Prop) s :
  (forall ev s, P s -> P (emit ev s)) ->
  (forall h s r ret s', P s -> pkcs11_init_cert e h s = (r, ret, s') -> P s') ->
  (forall s, P s -> P (pkcs11_destroy_certs s)) ->
  P s -> P (snd (pkcs11_enumerate_certs e s)).
Proof.
  intros He Hi Hd Hs. unfold pkcs11_enumerate_certs.
  destruct (negb (e_session_ok e)); [exact Hs |].
  pose proof (find_certs_preserves e P (fun ev s _ => He ev s) Hi
                (emit (EvAcquire false) s) (He _ _ Hs)) as H1.
  destruct (pkcs11_find_certs e _) as [rv s1]. simpl in H1.
  destruct (rv <? 0); simpl; auto.
Qed.

(** Enumerate leaves the objects on the token as they are. *)
Lemma enumerate_tok e s : tok (snd (pkcs11_enumerate_certs e s)) = tok s.
Proof.
  apply (enumerate_preserves e (fun s' => tok s' = tok s)); auto.
  intros h s0 r ret s' H0 Hi. apply init_cert_effect in Hi. intuition congruence.
Qed.

(** Enumerate adds no record for an object that is not an X.509
    certificate. *)
Lemma enumerate_new_records_x509 e s c :
  In c (certs (snd (pkcs11_enumerate_certs e s))) ->
  In c (certs s) \/ getattr_cert_type (tok s) (c_handle c) = Some CKC_X_509.
Proof.
  pose (P := fun s' => tok s' = tok s /\ forall c, In c (certs s') ->
               In c (certs s) \/ getattr_cert_type (tok s) (c_handle c) = Some CKC_X_509).
  assert (HP : P (snd (pkcs11_enumerate_certs e s))).
  { apply enumerate_preserves.
    - intros ev s0 H0. exact H0.
    - intros h s0 r ret s' [Ht Hc] Hi. apply init_cert_effect in Hi as (Ht' & _ & Hcs).
      split; [congruence |]. intros c' Hin.
      destruct Hcs as [Hcs | (Hx & _ & c0 & Hh & Hcs)]; rewrite Hcs in Hin; [auto |].
      apply in_app_or in Hin as [Hin | [Heq | []]]; [auto | subst c0].
      right. rewrite Hh, <- Ht. exact Hx.
    - intros s0 [Ht Hc]. split; [exact Ht | intros c' []].
    - split; [reflexivity | auto]. }
  apply HP.
Qed.

Lemma find_cert_loop_spec key cs :
  find_cert_loop key cs = find (spec_key_match key) cs.
Proof.
  induction cs as [| c cs IH]; simpl; [reflexivity |].
  rewrite IH. unfold spec_key_match, memcmp_eq, c_id_len.
  destruct (Nat.eqb_spec (length (c_id c)) (length key)) as [Hl |]; simpl; [| reflexivity].
  rewrite firstn_all, firstn_all2 by (rewrite Hl; apply le_n).
  reflexivity.
Qed.

(** Every module call made by a [pkcs11_find_certs] run is a token call:
    the log grows by calls none of which is a session call. *)
Lemma find_certs_trace e s :
  exists evs, trace (snd (pkcs11_find_certs e s)) = trace s ++ evs
              /\ no_session_event evs = true.
Proof.
  refine (find_certs_preserves e
           (fun s' => exists evs, trace s' = trace s ++ evs /\ no_session_event evs = true)
           _ _ s _).
  - intros ev s0 Hev (evs & Ht & Hn). exists (evs ++ [ev]). simpl.
    rewrite Ht, app_assoc. split; [reflexivity |].
    unfold no_session_event in *. rewrite forallb_app, Hn. simpl. rewrite Hev. reflexivity.
  - intros h s0 r ret s' (evs & Ht & Hn) Hi. apply init_cert_effect in Hi as (_ & Ht' & _).
    exists evs. rewrite Ht'. auto.
  - exists []. rewrite app_nil_r. auto.
Qed.

(** ** C1 *)

(** C1 (amended).  Reload of the record at index [i] succeeds exactly when
    a session is acquired, [C_FindObjectsInit] and the single
    [C_FindObjects] call succeed and at least one object on the token
    matches the search template; the first match's handle then overwrites
    the record's [object_handle].  Several matching objects do not make it
    fail. *)
Theorem reload_succeeds_iff_found e i s c :
  nth_error (certs s) i = Some c ->
  (fst (pkcs11_reload_certificate e i s) = 0 <->
   e_session_ok e = true /\ e_find_init_rv e = CKR_OK /\ e_find_rv e 0 = CKR_OK /\
   matching (reload_search_parameters c) (tok s) <> []) /\
  (fst (pkcs11_reload_certificate e i s) = 0 ->
   exists o ms, matching (reload_search_parameters c) (tok s) = o :: ms /\
     certs (snd (pkcs11_reload_certificate e i s))
     = upd_nth i (mkcert (o_handle o) (c_id c) (c_label c) (c_x509 c)) (certs s)).
Proof.
  intros Hc. unfold pkcs11_reload_certificate. rewrite Hc.
  destruct (e_session_ok e) eqn:Hs; simpl;
    [| split; [split; [discriminate | intros (? & _); discriminate] | discriminate]].
  destruct (Z.eqb_spec (e_find_init_rv e) CKR_OK) as [Hi | Hi]; simpl.
  2: { unfold CRYPTOKI_checkerr. rewrite (proj2 (Z.eqb_neq _ _) Hi). simpl.
       split; [split; [discriminate | intros (_ & ? & _); contradiction] | discriminate]. }
  destruct (Z.eqb_spec (e_find_rv e 0) CKR_OK) as [Hf | Hf]; simpl.
  2: { unfold CRYPTOKI_checkerr. rewrite (proj2 (Z.eqb_neq _ _) Hf). simpl.
       split; [split; [discriminate | intros (_ & _ & ? & _); contradiction] | discriminate]. }
  rewrite Hf. simpl.
  destruct (matching (reload_search_parameters c) (tok s)) as [| o ms] eqn:Hm; simpl.
  - split; [split; [discriminate | intros (_ & _ & _ & H); contradiction] | discriminate].
  - split; [split; [intros _; repeat split; auto; discriminate | intros _; reflexivity] |].
    intros _. exists o, ms. split; reflexivity.
Qed.

(** Witness: scenario S6, the record's certificate moved to handle 0x20. *)
Lemma reload_succeeds_iff_found_witness :
  nth_error (certs st_rotated) 0 = Some rec_A /\
  fst (pkcs11_reload_certificate env_ok 0 st_rotated) = 0.
Proof.
  split; [reflexivity |].
  apply (proj2 (proj1 (reload_succeeds_iff_found env_ok 0 st_rotated rec_A eq_refl))).
  split; [reflexivity | split; [reflexivity | split; [reflexivity |]]].
  intro H; vm_compute in H; discriminate.
Defined.

(** C1 refuted: two objects on the token match the template of [rec_A],
    and reload still succeeds, with the first one's handle. *)
Lemma reload_two_matches_succeeds :
  length (matching (reload_search_parameters rec_A) (tok st_rotated_twice)) = 2%nat /\
  fst (pkcs11_reload_certificate env_ok 0 st_rotated_twice) = 0 /\
  handles (snd (pkcs11_reload_certificate env_ok 0 st_rotated_twice)) = [0x20].
Proof. split; [| split]; vm_compute; reflexivity. Qed.

(** ** C2 *)

Lemma NoDup_snoc {A} (l : list A) x : NoDup l -> ~ In x l -> NoDup (l ++ [x]).
Proof.
  induction l as [| y l IH]; simpl; intros Hl Hx.
  - constructor; [intros [] | constructor].
  - inversion Hl as [| ? ? Hy Hl']; subst. constructor.
    + rewrite in_app_iff. simpl. intros [H | [H | []]]; [contradiction | subst; auto].
    + apply IH; auto.
Qed.

Lemma init_cert_nodup e h s r ret s' :
  NoDup (handles s) -> pkcs11_init_cert e h s = (r, ret, s') -> NoDup (handles s').
Proof.
  intros Hs Hi. apply init_cert_effect in Hi as (_ & _ & [Hc | (_ & Hn & c & Hh & Hc)]);
    unfold handles in *; rewrite Hc; [exact Hs |].
  rewrite map_app. simpl. rewrite Hh. apply NoDup_snoc; auto.
Qed.

Lemma enumerate_nodup e s :
  NoDup (handles s) -> NoDup (handles (snd (pkcs11_enumerate_certs e s))).
Proof.
  intros Hs. apply (enumerate_preserves e (fun s' => NoDup (handles s'))); [| | | exact Hs].
  - intros ev s0 H. exact H.
  - intros h s0 r ret s' H Hi. eapply init_cert_nodup; eauto.
  - intros s0 _. constructor.
Qed.

Lemma find_certificate_state e k s :
  snd (pkcs11_find_certificate e k s) = snd (pkcs11_enumerate_certs e s).
Proof.
  unfold pkcs11_find_certificate.
  destruct (pkcs11_enumerate_certs e s) as [rv s']. destruct (negb (rv =? 0)); reflexivity.
Qed.

Lemma remove_certificate_certs e c s :
  certs (snd (pkcs11_remove_certificate e c s)) = certs s.
Proof.
  unfold pkcs11_remove_certificate.
  destruct (negb (e_session_ok e)); [reflexivity |].
  destruct ((e_destroy_rv e =? CKR_OK) || e_destroy_done e);
    destruct (CRYPTOKI_checkerr (e_destroy_rv e)); reflexivity.
Qed.

(** C2 (amended).  Init-certificate, once the certificate type is read,
    returns success without inserting anything when a record of the cache
    already carries the handle.  So every public operation but reload keeps
    the object handles of the cache pairwise distinct: enumerate,
    find-by-key and store insert only through init-certificate; remove and
    destroy insert nothing. *)
Theorem ops_but_reload_keep_handles_unique e :
  (forall h s, getattr_cert_type (tok s) h <> None -> In h (handles s) ->
     pkcs11_init_cert e h s = (0, None, s)) /\
  (forall o s, (forall i, o <> OpReload i) ->
     NoDup (handles s) -> NoDup (handles (run_op e o s))).
Proof.
  split.
  { intros h s Ht Hh. unfold pkcs11_init_cert.
    destruct (getattr_cert_type (tok s) h) as [t |]; [| contradiction].
    destruct (negb (t =? CKC_X_509)); [reflexivity |].
    replace (existsb (fun c => c_handle c =? h) (certs s)) with true; [reflexivity |].
    symmetry. apply existsb_exists. unfold handles in Hh.
    apply in_map_iff in Hh as (c & Hc & Hin). exists c. split; [exact Hin |].
    apply Z.eqb_eq. exact Hc. }
  intros o s Hnr Hs. destruct o as [| k | x l id | c | i |]; simpl.
  - apply enumerate_nodup; exact Hs.
  - rewrite find_certificate_state. apply enumerate_nodup; exact Hs.
  - unfold pkcs11_store_certificate.
    destruct (negb (e_session_ok e)); [exact Hs |].
    destruct (e_create_rv e =? CKR_OK).
    + destruct (pkcs11_init_cert e (e_create_handle e) _) as [[r ret] s'] eqn:Hi.
      apply init_cert_nodup in Hi; [| exact Hs].
      destruct (CRYPTOKI_checkerr (e_create_rv e)); exact Hi.
    + destruct (CRYPTOKI_checkerr (e_create_rv e)); exact Hs.
  - unfold handles. rewrite remove_certificate_certs. exact Hs.
  - exfalso. apply (Hnr i). reflexivity.
  - constructor.
Qed.

(** Witness: the cache already holds handle 1; init-certificate skips it,
    and enumerate over the objects 1 and 2 adds only handle 2. *)
Lemma ops_but_reload_keep_handles_unique_witness :
  pkcs11_init_cert env_ok 1 st_cached_noid = (0, None, st_cached_noid) /\
  NoDup (handles (run_op env_ok OpEnumerate st_cached_noid)) /\
  handles (run_op env_ok OpEnumerate st_cached_noid) = [1; 2].
Proof.
  split; [| split].
  - apply (proj1 (ops_but_reload_keep_handles_unique env_ok) 1 st_cached_noid);
      [vm_compute; discriminate | left; reflexivity].
  - apply (proj2 (ops_but_reload_keep_handles_unique env_ok) OpEnumerate st_cached_noid);
      [intros i H; discriminate | repeat constructor; intros []].
  - vm_compute. reflexivity.
Defined.

(** C2 refuted: enumerating two certificates without id or label and then
    reloading the second one gives it the first one's handle. *)
Lemma reload_duplicates_handle :
  handles (run_ops env_ok [OpEnumerate; OpReload 1] (st_empty objs_bare)) = [1; 1] /\
  ~ NoDup (handles (run_ops env_ok [OpEnumerate; OpReload 1] (st_empty objs_bare))).
Proof.
  assert (H : handles (run_ops env_ok [OpEnumerate; OpReload 1] (st_empty objs_bare)) = [1; 1])
    by (vm_compute; reflexivity).
  split; [exact H |]. rewrite H. intros Hn. inversion Hn as [| ? ? Hin]; subst.
  apply Hin. left. reflexivity.
Qed.

(** ** C3 *)

(** C3.  Once a session is acquired, an enumerate that fails (the find
    iteration could not start, a [C_FindObjects] call failed, or
    init-certificate failed) leaves the cache empty. *)
Theorem enumerate_error_empties_cache e s :
  e_session_ok e = true ->
  fst (pkcs11_enumerate_certs e s) <> 0 ->
  certs (snd (pkcs11_enumerate_certs e s)) = [].
Proof.
  intros Hs. unfold pkcs11_enumerate_certs. rewrite Hs. simpl.
  destruct (pkcs11_find_certs e (emit (EvAcquire false) s)) as [rv s1].
  destruct (rv <? 0); simpl; [reflexivity | congruence].
Qed.

(** Witness: scenario S2 where the second [C_FindObjects] call fails after
    the first certificate was inserted. *)
Lemma enumerate_error_empties_cache_witness :
  e_session_ok env_find_fails = true /\
  fst (pkcs11_enumerate_certs env_find_fails (st_empty objs_S2)) <> 0 /\
  certs (snd (pkcs11_enumerate_certs env_find_fails (st_empty objs_S2))) = [].
Proof.
  split; [reflexivity |]. split; [vm_compute; discriminate |].
  apply enumerate_error_empties_cache; [reflexivity | vm_compute; discriminate].
Defined.

(** ** C4 *)

(** C4.  The digest selection of store is the spec's table: SHA-1, SHA-224,
    SHA-256, SHA-384, SHA-512 and SHA3-224/256/384/512 map to their
    (digest_id, mechanism_code) pairs, anything else or an unresolvable
    digest to (SHA1, MECH_SHA_1). *)
Theorem select_digest_table sigid :
  pkcs11_select_digest sigid = spec_select_digest sigid.
Proof.
  destruct sigid as [d |]; [| reflexivity].
  unfold pkcs11_select_digest, spec_select_digest, spec_digest_table.
  cbn [find fst].
  repeat rewrite (Z.eqb_sym _ d).
  repeat match goal with
         | |- context [d =? ?c] => destruct (Z.eqb_spec d c); [subst; reflexivity |]
         end.
  reflexivity.
Qed.

(** ** C5 *)

(** C5.  init-certificate fails when the certificate type cannot be read,
    succeeds without inserting when the type is not X.509, and so an
    enumerate adds to the cache only records of X.509 objects. *)
Theorem init_cert_type_policy e h s :
  (getattr_cert_type (tok s) h = None -> pkcs11_init_cert e h s = (-1, None, s)) /\
  (forall t, getattr_cert_type (tok s) h = Some t -> t <> CKC_X_509 ->
             pkcs11_init_cert e h s = (0, None, s)) /\
  (forall c, In c (certs (snd (pkcs11_enumerate_certs e s))) ->
             In c (certs s) \/ getattr_cert_type (tok s) (c_handle c) = Some CKC_X_509).
Proof.
  split; [| split].
  - intros H. unfold pkcs11_init_cert. rewrite H. reflexivity.
  - intros t H Ht. unfold pkcs11_init_cert. rewrite H.
    rewrite (proj2 (Z.eqb_neq _ _) Ht). reflexivity.
  - apply enumerate_new_records_x509.
Qed.

(** Witness: scenario S3, the WTLS object of handle 3 is skipped. *)
Lemma init_cert_type_policy_witness :
  getattr_cert_type (tok (st_empty objs_S3)) 3 = Some CKC_WTLS /\
  pkcs11_init_cert env_ok 3 (st_empty objs_S3) = (0, None, st_empty objs_S3).
Proof.
  split; [reflexivity |].
  apply (proj1 (proj2 (init_cert_type_policy env_ok 3 (st_empty objs_S3))) CKC_WTLS);
    [reflexivity | discriminate].
Defined.

(** ** C6 *)

(** C6.  Find-by-key enumerates, then returns the first cached record
    whose [id_len] and id bytes are the key's; NULL when none matches or
    when enumerate fails. *)
Theorem find_certificate_first_match e key s :
  pkcs11_find_certificate e key s =
  (let '(rv, s') := pkcs11_enumerate_certs e s in
   if Z.eqb rv 0 then (find (spec_key_match key) (certs s'), s') else (None, s')).
Proof.
  unfold pkcs11_find_certificate.
  destruct (pkcs11_enumerate_certs e s) as [rv s'].
  destruct (rv =? 0); simpl; [rewrite find_cert_loop_spec |]; reflexivity.
Qed.

(** ** C7 *)

(** C7.  Remove leaves the cache as it was, on success and on failure. *)
Theorem remove_keeps_cache e c s :
  certs (snd (pkcs11_remove_certificate e c s)) = certs s.
Proof. apply remove_certificate_certs. Qed.

(** ** C8 *)

Ltac one_session mid :=
  eexists; split; [simpl; rewrite <- !app_assoc; reflexivity |];
  right; eexists; exists mid; split; reflexivity.

Ltac no_session_taken :=
  exists []; rewrite app_nil_r; split; [reflexivity | left; reflexivity].

(** C8.  Enumerate, remove, reload and store release the session they
    acquired on every exit path, and issue no other session call. *)
Theorem sessions_released e s :
  releases_session s (snd (pkcs11_enumerate_certs e s)) /\
  (forall c, releases_session s (snd (pkcs11_remove_certificate e c s))) /\
  (forall i, releases_session s (snd (pkcs11_reload_certificate e i s))) /\
  (forall x l id, releases_session s (snd (pkcs11_store_certificate e x l id s))).
Proof.
  unfold releases_session. split; [| split; [| split]].
  - unfold pkcs11_enumerate_certs.
    destruct (e_session_ok e); simpl; [| no_session_taken].
    destruct (find_certs_trace e (emit (EvAcquire false) s)) as (evs & Ht & Hn).
    destruct (pkcs11_find_certs e (emit (EvAcquire false) s)) as [rv s1]. simpl in Ht.
    exists (EvAcquire false :: evs ++ [EvRelease]). split.
    + destruct (rv <? 0); simpl; rewrite Ht, <- !app_assoc; reflexivity.
    + right. exists false, evs. auto.
  - intros c. unfold pkcs11_remove_certificate.
    destruct (e_session_ok e); simpl; [| no_session_taken].
    destruct ((e_destroy_rv e =? CKR_OK) || e_destroy_done e);
      destruct (CRYPTOKI_checkerr (e_destroy_rv e));
      one_session [EvDestroy (c_handle c)].
  - intros i. unfold pkcs11_reload_certificate.
    destruct (nth_error (certs s) i) as [c |]; [| no_session_taken].
    destruct (e_session_ok e); simpl; [| no_session_taken].
    destruct (e_find_init_rv e =? CKR_OK); simpl.
    + destruct (e_find_rv e 0 =? CKR_OK);
        [ destruct (find_objects_1 _ c) as [c' count] | ];
        destruct (CRYPTOKI_checkerr _); try destruct (negb (_ =? 1));
        one_session [EvFindInit (reload_search_parameters c); EvFind; EvFindFinal].
    + destruct (CRYPTOKI_checkerr _); try destruct (negb (_ =? 1));
        one_session [EvFindInit (reload_search_parameters c)].
  - intros x l id. unfold pkcs11_store_certificate.
    destruct (e_session_ok e); simpl; [| no_session_taken].
    destruct (e_create_rv e =? CKR_OK).
    + destruct (pkcs11_init_cert e (e_create_handle e) _) as [[r ret] s'] eqn:Hi.
      apply init_cert_effect in Hi as (_ & Ht & _). simpl in Ht.
      exists [EvAcquire true; EvCreate (store_template e x l id); EvRelease].
      destruct (CRYPTOKI_checkerr (e_create_rv e)); simpl; rewrite Ht;
        (split; [rewrite <- !app_assoc; reflexivity |
                 right; exists true, [EvCreate (store_template e x l id)]; split; reflexivity]).
    + destruct (CRYPTOKI_checkerr (e_create_rv e));
        one_session [EvCreate (store_template e x l id)].
Qed.

(** ** C9 *)

Ltac in_list :=
  simpl; repeat (first [left; reflexivity | right]).

(** C9.  The create template of store holds the hash of the subject public
    key exactly when [X509_pubkey_digest] succeeds under the selected
    digest, with that digest as its value; class, token flag, certificate
    type, subject, issuer, name-hash algorithm and value are always
    present. *)
Theorem store_template_hash_attr e x label id :
  (forall v, In (CKA_HASH_OF_SUBJECT_PUBLIC_KEY, v) (store_template e x label id) <->
     exists md, e_pubkey_digest e x (fst (pkcs11_select_digest (e_sigid_algs e (x_sig_nid x))))
                = Some md /\ v = VBytes md) /\
  Forall (fun t => exists v, In (t, v) (store_template e x label id))
    [CKA_CLASS; CKA_TOKEN; CKA_CERTIFICATE_TYPE; CKA_SUBJECT; CKA_ISSUER;
     CKA_NAME_HASH_ALGORITHM; CKA_VALUE].
Proof.
  unfold store_template.
  destruct (pkcs11_select_digest (e_sigid_algs e (x_sig_nid x))) as [md_nid ckm]. simpl fst.
  destruct (e_pubkey_digest e x md_nid) as [md |];
    destruct label as [l |]; destruct id as [| b id'];
    (split;
     [ intros v; split;
       [ intros H; simpl in H;
         unfold CKA_HASH_OF_SUBJECT_PUBLIC_KEY, CKA_CLASS, CKA_TOKEN, CKA_CERTIFICATE_TYPE,
           CKA_SUBJECT, CKA_ISSUER, CKA_NAME_HASH_ALGORITHM, CKA_VALUE, CKA_LABEL, CKA_ID in H;
         repeat match goal with
                | H : _ \/ _ |- _ => destruct H as [H | H]
                | H : (_, _) = (_, _) |- _ => inversion H; clear H
                | H : False |- _ => destruct H
                end; subst; eauto
       | intros (md' & Hmd & ->); try discriminate; inversion Hmd; subst; in_list ]
     | repeat constructor; eexists; in_list ]).
Qed.

(** ** C10 *)

Lemma find_cert_loop_empty_key cs :
  find_cert_loop [] cs = find (fun c => Nat.eqb (c_id_len c) 0) cs.
Proof.
  induction cs as [| c cs IH]; simpl; [reflexivity |].
  rewrite IH. unfold memcmp_eq. simpl. rewrite andb_true_r. reflexivity.
Qed.

Lemma find_none_Forall {A} (f : A -> bool) l :
  find f l = None <-> Forall (fun x => f x = false) l.
Proof.
  induction l as [| a l IH]; simpl; [split; auto |].
  destruct (f a) eqn:Ha; split.
  - discriminate.
  - intros H. inversion H; congruence.
  - intros H. constructor; [exact Ha | apply IH; exact H].
  - intros H. inversion H; subst. apply IH. assumption.
Qed.

(** C10 (amended).  With a key whose [id_len] is 0, find-by-key returns,
    when enumerate succeeds, the first cached record whose [id_len] is also
    0; it returns NULL exactly when enumerate fails or every cached record
    has a non-empty id.  When no session can be acquired it returns NULL and
    keeps the cache as it was, whatever records it holds. *)
Theorem find_empty_key e s :
  (e_session_ok e = false ->
   fst (pkcs11_find_certificate e [] s) = None /\
   certs (snd (pkcs11_find_certificate e [] s)) = certs s) /\
  fst (pkcs11_find_certificate e [] s) =
    (if Z.eqb (fst (pkcs11_enumerate_certs e s)) 0
     then find (fun c => Nat.eqb (c_id_len c) 0) (certs (snd (pkcs11_enumerate_certs e s)))
     else None) /\
  (fst (pkcs11_find_certificate e [] s) = None <->
   fst (pkcs11_enumerate_certs e s) <> 0 \/
   Forall (fun c => c_id c <> []) (certs (snd (pkcs11_enumerate_certs e s)))).
Proof.
  split.
  { intros Hs. unfold pkcs11_find_certificate, pkcs11_enumerate_certs.
    rewrite Hs. split; reflexivity. }
  unfold pkcs11_find_certificate.
  destruct (pkcs11_enumerate_certs e s) as [rv s']. simpl.
  rewrite find_cert_loop_empty_key.
  destruct (Z.eqb_spec rv 0) as [-> | Hrv]; simpl.
  - split; [reflexivity |]. rewrite find_none_Forall. split.
    + intros H. right. eapply Forall_impl; [| exact H]. simpl.
      intros c Hc Hnil. unfold c_id_len in Hc. rewrite Hnil in Hc. discriminate.
    + intros [H | H]; [congruence |]. eapply Forall_impl; [| exact H]. simpl.
      intros c Hc. unfold c_id_len. destruct (c_id c); [congruence | reflexivity].
  - split; [reflexivity |]. split; [intros _; left; exact Hrv | reflexivity].
Qed.

(** C10 refuted: when no session can be acquired, find-by-key with an empty
    key returns NULL although the cache holds a record without id. *)
Lemma find_empty_key_no_session :
  In (mkcert 1 [] None None)
     (certs (snd (pkcs11_find_certificate env_no_session [] st_cached_noid))) /\
  fst (pkcs11_find_certificate env_no_session [] st_cached_noid) = None.
Proof. vm_compute. split; [left; reflexivity | reflexivity]. Qed.

(** * Further properties of p11_cert.c *)

(** ** pkcs11_init_cert, case by case *)

Lemma init_cert_cases e h s r ret s' :
  pkcs11_init_cert e h s = (r, ret, s') ->
  tok s' = tok s /\ trace s' = trace s /\
  ((r = -1 /\ ret = None /\ certs s' = certs s /\
    (getattr_cert_type (tok s) h = None \/
     (getattr_cert_type (tok s) h = Some CKC_X_509 /\ ~ In h (handles s) /\
      e_alloc_ok e (length (certs s)) = false))) \/
   (r = 0 /\ ret = None /\ certs s' = certs s /\
    exists t, getattr_cert_type (tok s) h = Some t /\ (t <> CKC_X_509 \/ In h (handles s))) \/
   (r = 0 /\ getattr_cert_type (tok s) h = Some CKC_X_509 /\ ~ In h (handles s) /\
    e_alloc_ok e (length (certs s)) = true /\
    ret = Some (init_record e (tok s) h) /\
    certs s' = certs s ++ [init_record e (tok s) h])).
Proof.
  assert (Hin : existsb (fun c => c_handle c =? h) (certs s) = true <-> In h (handles s)).
  { unfold handles. rewrite existsb_exists, in_map_iff. split.
    - intros (c & Hc & Heq). exists c. split; [apply Z.eqb_eq |]; assumption.
    - intros (c & Heq & Hc). exists c. split; [| apply Z.eqb_eq]; assumption. }
  unfold pkcs11_init_cert.
  destruct (getattr_cert_type (tok s) h) as [t|] eqn:Ht.
  2: { intros H; inversion H; subst. repeat split; auto. left; auto. }
  destruct (Z.eqb_spec t CKC_X_509) as [-> | Hx]; simpl.
  2: { intros H; inversion H; subst. repeat split; auto. right; left.
       repeat split; auto. exists t; auto. }
  destruct (existsb (fun c => c_handle c =? h) (certs s)) eqn:Hd.
  { intros H; inversion H; subst. repeat split; auto. right; left.
    repeat split; auto. exists CKC_X_509. split; [reflexivity | right; apply Hin; first [exact Hd | reflexivity]]. }
  assert (Hn : ~ In h (handles s)) by (intros Hh; apply Hin in Hh; congruence).
  destruct (e_alloc_ok e (length (certs s))) eqn:Ha; simpl.
  - intros H; inversion H; subst. repeat split; auto. right; right. repeat split; auto.
  - intros H; inversion H; subst. repeat split; auto. left. repeat split; auto.
Qed.

(** ** The find loop of enumerate *)

Lemma next_cert_loop_result e rest : forall k s,
  fst (next_cert_loop e k rest s) = 1 \/ fst (next_cert_loop e k rest s) = -1.
Proof.
  induction rest as [| o rest IH]; intros k s; simpl.
  - destruct (CRYPTOKI_checkerr (e_find_rv e k)); auto.
  - destruct (CRYPTOKI_checkerr (e_find_rv e k)); [auto |].
    destruct (pkcs11_init_cert e (o_handle o) (emit EvFind s)) as [[r ret] s'].
    destruct (negb (r =? 0)); auto.
Qed.

(** The loop only appends records and keeps the token. *)
Lemma next_cert_loop_appends e rest k s :
  tok (snd (next_cert_loop e k rest s)) = tok s /\
  exists nw, certs (snd (next_cert_loop e k rest s)) = certs s ++ nw.
Proof.
  refine (next_cert_loop_preserves e
            (fun s' => tok s' = tok s /\ exists nw, certs s' = certs s ++ nw)
            _ _ rest k s _).
  - intros ev s0 _ H. exact H.
  - intros h s0 r ret s' (Ht & nw & Hc) Hi.
    apply init_cert_effect in Hi as (Ht' & _ & [Hc' | (_ & _ & c & _ & Hc')]).
    + split; [congruence | exists nw; congruence].
    + split; [congruence | exists (nw ++ [c]); rewrite Hc', Hc, app_assoc; reflexivity].
  - split; [reflexivity | exists []; rewrite app_nil_r; reflexivity].
Qed.

Lemma handles_app s s' nw :
  certs s' = certs s ++ nw -> forall h, In h (handles s) -> In h (handles s').
Proof.
  intros Hc h Hh. unfold handles in *. rewrite Hc, map_app. apply in_or_app. left. exact Hh.
Qed.

(** A loop that ends with [count == 0] has cached every X.509 object it
    was given. *)
Lemma next_cert_loop_complete e rest : forall k s s',
  next_cert_loop e k rest s = (1, s') ->
  forall o, In o rest -> is_x509_obj (tok s) (o_handle o) = true ->
  In (o_handle o) (handles s').
Proof.
  induction rest as [| o rest IH]; intros k s s' Hl o' Hin Hx; [destruct Hin |]. simpl in Hl.
  destruct (CRYPTOKI_checkerr (e_find_rv e k)); [discriminate |].
  destruct (pkcs11_init_cert e (o_handle o) (emit EvFind s)) as [[r ret] s1] eqn:Hi.
  destruct (negb (r =? 0)) eqn:Hr; [discriminate |].
  apply negb_false_iff, Z.eqb_eq in Hr. subst r.
  pose proof (next_cert_loop_appends e rest (S k) s1) as [Ht2 [nw Hc2]]. rewrite Hl in Ht2, Hc2.
  simpl in Ht2, Hc2.
  apply init_cert_cases in Hi as (Ht1 & _ & Hcase). simpl in Ht1.
  destruct Hin as [<- | Hin].
  - apply (handles_app s1 s' nw Hc2).
    unfold is_x509_obj in Hx. simpl in Hcase.
    destruct Hcase as [(? & _) | [(_ & _ & Hc1 & t & Ht & [Hne | Hh]) | (_ & _ & _ & _ & _ & Hc1)]];
      [discriminate | | | ].
    + rewrite Ht in Hx. apply Z.eqb_eq in Hx. contradiction.
    + unfold handles. rewrite Hc1. exact Hh.
    + unfold handles. rewrite Hc1, map_app. apply in_or_app. right. left. reflexivity.
  - apply (IH (S k) s1 s' Hl o' Hin). rewrite Ht1. exact Hx.
Qed.

(** Run again on a cache that already holds every X.509 object it is
    given, a loop that succeeded succeeds again and inserts nothing. *)
Lemma next_cert_loop_again e rest : forall k s s' t,
  next_cert_loop e k rest s = (1, s') ->
  tok t = tok s ->
  (forall o, In o rest -> is_x509_obj (tok s) (o_handle o) = true -> In (o_handle o) (handles t)) ->
  fst (next_cert_loop e k rest t) = 1 /\ certs (snd (next_cert_loop e k rest t)) = certs t.
Proof.
  induction rest as [| o rest IH]; intros k s s' t Hl Ht Hall; simpl in *.
  - destruct (CRYPTOKI_checkerr (e_find_rv e k)); [discriminate |]. auto.
  - destruct (CRYPTOKI_checkerr (e_find_rv e k)); [discriminate |].
    destruct (pkcs11_init_cert e (o_handle o) (emit EvFind s)) as [[r ret] s1] eqn:Hi.
    destruct (negb (r =? 0)) eqn:Hr; [discriminate |].
    apply negb_false_iff, Z.eqb_eq in Hr. subst r.
    apply init_cert_cases in Hi as (Ht1 & _ & Hcase). simpl in Ht1, Hcase.
    assert (Hty : exists ty, getattr_cert_type (tok s) (o_handle o) = Some ty)
      by (destruct Hcase as [(? & _) | [(_ & _ & _ & ty & Hty & _) | (_ & Hty & _)]];
          [discriminate | eauto | eauto]).
    destruct Hty as [ty Hty].
    assert (Hi2 : pkcs11_init_cert e (o_handle o) (emit EvFind t) = (0, None, emit EvFind t)).
    { unfold pkcs11_init_cert. simpl. rewrite Ht, Hty.
      destruct (Z.eqb_spec ty CKC_X_509) as [-> | Hne]; simpl; [| reflexivity].
      assert (Hh : In (o_handle o) (handles t))
        by (apply Hall; [left; reflexivity | unfold is_x509_obj; rewrite Hty; reflexivity]).
      unfold handles in Hh. apply in_map_iff in Hh as (c & Hc & Hin).
      replace (existsb (fun c => c_handle c =? o_handle o) (certs t)) with true; [reflexivity |].
      symmetry. apply existsb_exists. exists c. split; [exact Hin | apply Z.eqb_eq; exact Hc]. }
    rewrite Hi2. simpl.
    destruct (IH (S k) s1 s' (emit EvFind t) Hl) as [H1 H2].
    + simpl. congruence.
    + intros o' Hin' Hx'. apply Hall; [right; exact Hin' | rewrite <- Ht1; exact Hx'].
    + split; [exact H1 | rewrite H2; reflexivity].
Qed.

(** The loop issues one [C_FindObjects] call per object it is given, plus
    the final one, or fewer when it stops on an error. *)
Lemma next_cert_loop_trace e rest : forall k s,
  exists n, trace (snd (next_cert_loop e k rest s)) = trace s ++ repeat EvFind n
            /\ (1 <= n <= length rest + 1)%nat.
Proof.
  induction rest as [| o rest IH]; intros k s; simpl.
  - exists 1%nat. destruct (CRYPTOKI_checkerr (e_find_rv e k)); simpl; split; auto.
  - destruct (CRYPTOKI_checkerr (e_find_rv e k)).
    { exists 1%nat. simpl. split; [reflexivity | lia]. }
    destruct (pkcs11_init_cert e (o_handle o) (emit EvFind s)) as [[r ret] s1] eqn:Hi.
    apply init_cert_effect in Hi as (_ & Ht1 & _). simpl in Ht1.
    destruct (negb (r =? 0)).
    + exists 1%nat. simpl. rewrite Ht1. split; [reflexivity | lia].
    + destruct (IH (S k) s1) as (n & Htr & Hn). exists (S n).
      rewrite Htr, Ht1, <- app_assoc. split; [reflexivity | lia].
Qed.

Lemma NoDup_map_filter {A B} (f : A -> B) (p : A -> bool) l :
  NoDup (map f l) -> NoDup (map f (filter p l)).
Proof.
  induction l as [| a l IH]; simpl; intros H; [constructor |].
  inversion H as [| ? ? Ha Hl]; subst.
  destruct (p a); simpl; [| auto].
  constructor; [| auto].
  intros Hin. apply Ha. apply in_map_iff in Hin as (x & Hx & Hin).
  apply filter_In in Hin as [Hin _]. apply in_map_iff. eauto.
Qed.

(** On objects of distinct handles none of which is cached, the loop
    appends one record per X.509 object, in the order it is given them. *)
Lemma next_cert_loop_order e rest : forall k s s',
  next_cert_loop e k rest s = (1, s') ->
  NoDup (map o_handle rest) ->
  (forall o, In o rest -> ~ In (o_handle o) (handles s)) ->
  certs s' = certs s ++ map (fun o => init_record e (tok s) (o_handle o))
                           (filter (fun o => is_x509_obj (tok s) (o_handle o)) rest).
Proof.
  induction rest as [| o rest IH]; intros k s s' Hl Hnd Hdis; simpl in *.
  - destruct (CRYPTOKI_checkerr (e_find_rv e k)); [discriminate |].
    inversion Hl; subst. simpl. rewrite app_nil_r. reflexivity.
  - destruct (CRYPTOKI_checkerr (e_find_rv e k)); [discriminate |].
    destruct (pkcs11_init_cert e (o_handle o) (emit EvFind s)) as [[r ret] s1] eqn:Hi.
    destruct (negb (r =? 0)) eqn:Hr; [discriminate |].
    apply negb_false_iff, Z.eqb_eq in Hr. subst r.
    inversion Hnd as [| ? ? Hno Hnd']; subst.
    apply init_cert_cases in Hi as (Ht1 & _ & Hcase). simpl in Ht1, Hcase.
    rewrite (IH (S k) s1 s' Hl Hnd').
    + rewrite Ht1. unfold is_x509_obj.
      destruct Hcase as [(? & _) | [(_ & _ & Hc1 & t & Ht & [Hne | Hh]) | (_ & Hx & _ & _ & _ & Hc1)]];
        [discriminate | | | ].
      * rewrite Ht, (proj2 (Z.eqb_neq _ _) Hne), Hc1. reflexivity.
      * exfalso. apply (Hdis o); [left; reflexivity | exact Hh].
      * rewrite Hx, Z.eqb_refl, Hc1, <- app_assoc. reflexivity.
    + intros o' Hin' Hh. unfold handles in Hh.
      destruct Hcase as [(? & _) | [(_ & _ & Hc1 & _) | (_ & _ & _ & _ & _ & Hc1)]];
        [discriminate | | ]; rewrite Hc1 in Hh.
      * apply (Hdis o'); [right; exact Hin' | exact Hh].
      * rewrite map_app in Hh. apply in_app_or in Hh as [Hh | [Hh | []]].
        -- apply (Hdis o'); [right; exact Hin' | exact Hh].
        -- apply Hno. simpl in Hh. rewrite Hh. apply in_map. exact Hin'.
Qed.

(** A successful enumerate: a session was acquired, the find iteration was
    started, and the loop ended on [count == 0]. *)
Lemma enumerate_ok_inv e s :
  fst (pkcs11_enumerate_certs e s) = 0 ->
  e_session_ok e = true /\ e_find_init_rv e = CKR_OK /\
  exists s1,
    next_cert_loop e 0 (matching cert_search_attrs (tok s))
      (emit (EvFindInit cert_search_attrs) (emit (EvAcquire false) s)) = (1, s1) /\
    snd (pkcs11_enumerate_certs e s) = emit EvRelease (emit EvFindFinal s1).
Proof.
  unfold pkcs11_enumerate_certs.
  destruct (e_session_ok e); simpl; [| discriminate].
  unfold pkcs11_find_certs.
  destruct (Z.eqb_spec (e_find_init_rv e) CKR_OK) as [Hi | Hi];
    unfold CRYPTOKI_checkerr; [rewrite Hi; simpl | rewrite (proj2 (Z.eqb_neq _ _) Hi); simpl;
                               discriminate].
  pose proof (next_cert_loop_result e (matching cert_search_attrs (tok s)) 0
                (emit (EvFindInit cert_search_attrs) (emit (EvAcquire false) s))) as Hres.
  destruct (next_cert_loop e 0 _ _) as [res s1]. simpl in Hres.
  destruct Hres as [-> | ->]; simpl; [| discriminate].
  intros _. repeat split; auto. exists s1. auto.
Qed.

(** ** Enumerate *)

(** A successful enumerate keeps every record already cached, in place,
    and only appends new ones. *)
Theorem enumerate_only_appends e s :
  fst (pkcs11_enumerate_certs e s) = 0 ->
  exists nw, certs (snd (pkcs11_enumerate_certs e s)) = certs s ++ nw.
Proof.
  intros H. apply enumerate_ok_inv in H as (_ & _ & s1 & Hl & ->).
  pose proof (next_cert_loop_appends e (matching cert_search_attrs (tok s)) 0
                (emit (EvFindInit cert_search_attrs) (emit (EvAcquire false) s))) as [_ [nw Hc]].
  rewrite Hl in Hc. exists nw. exact Hc.
Qed.

Lemma enumerate_only_appends_witness :
  fst (pkcs11_enumerate_certs env_ok st_rotated) = 0 /\
  exists nw, certs (snd (pkcs11_enumerate_certs env_ok st_rotated)) = certs st_rotated ++ nw.
Proof.
  split; [vm_compute; reflexivity |].
  apply enumerate_only_appends. vm_compute. reflexivity.
Defined.

(** After a successful enumerate, every certificate object of the token
    whose type is X.509 has a record in the cache. *)
Theorem enumerate_complete e s :
  fst (pkcs11_enumerate_certs e s) = 0 ->
  forall o, In o (matching cert_search_attrs (tok s)) ->
  is_x509_obj (tok s) (o_handle o) = true ->
  In (o_handle o) (handles (snd (pkcs11_enumerate_certs e s))).
Proof.
  intros H. apply enumerate_ok_inv in H as (_ & _ & s1 & Hl & ->).
  intros o Hin Hx. apply (next_cert_loop_complete e _ 0 _ _ Hl o Hin Hx).
Qed.

Lemma enumerate_complete_witness :
  In (o_handle (cert_object 2 CKC_X_509 [2; 2] None))
     (handles (snd (pkcs11_enumerate_certs env_ok (st_empty objs_S2)))).
Proof.
  apply enumerate_complete; [vm_compute; reflexivity | vm_compute; auto | reflexivity].
Defined.

(** Enumerate is idempotent: after a successful enumerate, enumerating
    again with the same module succeeds and leaves the cache as it is. *)
Theorem enumerate_idempotent e s :
  fst (pkcs11_enumerate_certs e s) = 0 ->
  fst (pkcs11_enumerate_certs e (snd (pkcs11_enumerate_certs e s))) = 0 /\
  certs (snd (pkcs11_enumerate_certs e (snd (pkcs11_enumerate_certs e s))))
  = certs (snd (pkcs11_enumerate_certs e s)).
Proof.
  intros H.
  pose proof (enumerate_tok e s) as Htok.
  apply enumerate_ok_inv in H as (Hs & Hi & s1 & Hl & Heq).
  assert (Hcomp : forall o, In o (matching cert_search_attrs (tok s)) ->
            is_x509_obj (tok s) (o_handle o) = true ->
            In (o_handle o) (handles (snd (pkcs11_enumerate_certs e s))))
    by (rewrite Heq; intros o Hin Hx; apply (next_cert_loop_complete e _ 0 _ _ Hl o Hin Hx)).
  set (t := snd (pkcs11_enumerate_certs e s)) in *.
  assert (Hs1 : tok s1 = tok s)
    by (pose proof (next_cert_loop_appends e (matching cert_search_attrs (tok s)) 0
                      (emit (EvFindInit cert_search_attrs) (emit (EvAcquire false) s))) as [Ht _];
        rewrite Hl in Ht; exact Ht).
  destruct (next_cert_loop_again e (matching cert_search_attrs (tok s)) 0 _ s1
              (emit (EvFindInit cert_search_attrs) (emit (EvAcquire false) t)) Hl)
    as [H1 H2].
  - simpl. exact Htok.
  - intros o Hin Hx. simpl in Hx. simpl. apply Hcomp; assumption.
  - unfold pkcs11_enumerate_certs at 1 2. rewrite Hs. simpl.
    unfold pkcs11_find_certs. simpl. rewrite Hi. simpl. rewrite Htok.
    destruct (next_cert_loop e 0 (matching cert_search_attrs (tok s))
                (emit (EvFindInit cert_search_attrs) (emit (EvAcquire false) t)))
      as [res s2] eqn:HR.
    simpl in H1, H2. subst res. simpl.
    split; [reflexivity | exact H2].
Qed.

Lemma enumerate_idempotent_witness :
  fst (pkcs11_enumerate_certs env_ok (st_empty objs_S3)) = 0 /\
  certs (snd (pkcs11_enumerate_certs env_ok (snd (pkcs11_enumerate_certs env_ok (st_empty objs_S3)))))
  = certs (snd (pkcs11_enumerate_certs env_ok (st_empty objs_S3))).
Proof.
  split; [vm_compute; reflexivity |].
  apply enumerate_idempotent. vm_compute. reflexivity.
Defined.

(** Once the find iteration has started, enumerate issues one or more
    [C_FindObjects] calls (at most one per certificate object, plus the
    final one), then always [C_FindObjectsFinal], then releases the
    session. *)
Theorem enumerate_call_sequence e s :
  e_session_ok e = true -> e_find_init_rv e = CKR_OK ->
  exists n,
    trace (snd (pkcs11_enumerate_certs e s))
    = trace s ++ [EvAcquire false; EvFindInit cert_search_attrs]
              ++ repeat EvFind n ++ [EvFindFinal; EvRelease]
    /\ (1 <= n <= length (matching cert_search_attrs (tok s)) + 1)%nat.
Proof.
  intros Hs Hi. unfold pkcs11_enumerate_certs, pkcs11_find_certs. rewrite Hs, Hi. simpl.
  destruct (next_cert_loop_trace e (matching cert_search_attrs (tok s)) 0
              (emit (EvFindInit cert_search_attrs) (emit (EvAcquire false) s))) as (n & Ht & Hn).
  destruct (next_cert_loop e 0 _ _) as [res s1]. simpl in Ht.
  exists n. split; [| exact Hn].
  destruct (res <? 0); simpl; rewrite Ht; repeat rewrite <- app_assoc; reflexivity.
Qed.

Lemma enumerate_call_sequence_witness :
  trace (snd (pkcs11_enumerate_certs env_find_fails (st_empty objs_S2)))
  = [EvAcquire false; EvFindInit cert_search_attrs; EvFind; EvFind; EvFindFinal; EvRelease] /\
  exists n,
    trace (snd (pkcs11_enumerate_certs env_find_fails (st_empty objs_S2)))
    = trace (st_empty objs_S2) ++ [EvAcquire false; EvFindInit cert_search_attrs]
      ++ repeat EvFind n ++ [EvFindFinal; EvRelease]
    /\ (1 <= n <= length (matching cert_search_attrs (tok (st_empty objs_S2))) + 1)%nat.
Proof.
  split; [vm_compute; reflexivity |].
  apply enumerate_call_sequence; reflexivity.
Defined.

(** On a token whose objects have distinct handles, none of them cached, a
    successful enumerate appends one record per X.509 certificate object,
    in the token's find order, each filled from that object. *)
Theorem enumerate_records_in_find_order e s :
  NoDup (map o_handle (tok s)) ->
  (forall o, In o (tok s) -> ~ In (o_handle o) (handles s)) ->
  fst (pkcs11_enumerate_certs e s) = 0 ->
  certs (snd (pkcs11_enumerate_certs e s))
  = certs s ++ map (fun o => init_record e (tok s) (o_handle o))
                   (filter (fun o => is_x509_obj (tok s) (o_handle o))
                           (matching cert_search_attrs (tok s))).
Proof.
  intros Hnd Hdis H. apply enumerate_ok_inv in H as (_ & _ & s1 & Hl & ->).
  simpl. rewrite (next_cert_loop_order e _ 0 _ _ Hl); [reflexivity | |].
  - apply NoDup_map_filter. exact Hnd.
  - intros o Hin. apply filter_In in Hin as [Hin _]. apply Hdis. exact Hin.
Qed.

Lemma enumerate_records_in_find_order_witness :
  certs (snd (pkcs11_enumerate_certs env_ok (st_empty objs_S2)))
  = map (fun o => init_record env_ok objs_S2 (o_handle o))
        (filter (fun o => is_x509_obj objs_S2 (o_handle o))
                (matching cert_search_attrs objs_S2)).
Proof.
  apply (enumerate_records_in_find_order env_ok (st_empty objs_S2)).
  - simpl. constructor; [simpl; intros [H | []]; discriminate | constructor; [intros [] | constructor]].
  - intros o _ [].
  - vm_compute. reflexivity.
Defined.

(** ** Store *)

Lemma find_app {A} (f : A -> bool) l1 l2 :
  find f (l1 ++ l2) = match find f l1 with Some x => Some x | None => find f l2 end.
Proof. induction l1 as [| a l1 IH]; simpl; [reflexivity |]. destruct (f a); auto. Qed.

(** What [pkcs11_init_cert] reads back from an object created with the
    template of store. *)
Lemma store_template_getattr e x label id h :
  getattr (mkobj h (store_template e x label id)) CKA_CERTIFICATE_TYPE = Some (VInt CKC_X_509) /\
  getattr (mkobj h (store_template e x label id)) CKA_ID
    = (match id with [] => None | _ => Some (VBytes id) end) /\
  getattr (mkobj h (store_template e x label id)) CKA_LABEL
    = (match label with Some l => Some (VStr l) | None => None end) /\
  getattr (mkobj h (store_template e x label id)) CKA_VALUE = Some (VBytes (x_der x)).
Proof.
  unfold store_template.
  destruct (pkcs11_select_digest (e_sigid_algs e (x_sig_nid x))) as [md_nid ckm].
  destruct (e_pubkey_digest e x md_nid); destruct label; destruct id;
    repeat split; reflexivity.
Qed.

Lemma lookup_obj_created objs h attrs :
  lookup_obj objs h = None -> lookup_obj (objs ++ [mkobj h attrs]) h = Some (mkobj h attrs).
Proof.
  intros H. unfold lookup_obj in *. rewrite find_app, H. simpl. rewrite Z.eqb_refl. reflexivity.
Qed.

(** Store of a certificate under a handle the token and the cache do not
    know yet: the object is created with the store template, and a record
    carrying the new handle, the caller's id and label and the decoded
    certificate is appended to the cache and returned. *)
Theorem store_inserts_record e x label id s :
  e_session_ok e = true -> e_create_rv e = CKR_OK ->
  lookup_obj (tok s) (e_create_handle e) = None ->
  ~ In (e_create_handle e) (handles s) ->
  e_alloc_ok e (length (certs s)) = true ->
  (length id <= PKCS11_ID_SIZE)%nat ->
  let c := mkcert (e_create_handle e) id label
                  (if e_d2i_ok e (x_der x) then Some (x_der x) else None) in
  fst (fst (pkcs11_store_certificate e x label id s)) = 0 /\
  snd (fst (pkcs11_store_certificate e x label id s)) = Some c /\
  certs (snd (pkcs11_store_certificate e x label id s)) = certs s ++ [c] /\
  tok (snd (pkcs11_store_certificate e x label id s))
  = tok s ++ [mkobj (e_create_handle e) (store_template e x label id)].
Proof.
  intros Hs Hc Hl Hn Ha Hid c.
  pose proof (store_template_getattr e x label id (e_create_handle e)) as (Gt & Gi & Gl & Gv).
  pose proof (lookup_obj_created (tok s) (e_create_handle e) (store_template e x label id) Hl)
    as Hlk.
  assert (Hd : existsb (fun c => c_handle c =? e_create_handle e) (certs s) = false).
  { destruct (existsb _ (certs s)) eqn:Hd; [| reflexivity]. exfalso. apply Hn.
    apply existsb_exists in Hd as (c' & Hin & Heq). apply Z.eqb_eq in Heq.
    unfold handles. rewrite <- Heq. apply in_map. exact Hin. }
  unfold pkcs11_store_certificate, pkcs11_init_cert.
  rewrite Hs, Hc. simpl.
  unfold getattr_cert_type, getattr_id, getattr_label, getattr_value. rewrite Hlk, Gt. simpl.
  rewrite Hd, Ha. simpl. rewrite Gi, Gl, Gv.
  assert (Hidv : (match match id with [] => None | _ => Some (VBytes id) end with
                  | Some (VBytes l) => if Nat.leb (length l) PKCS11_ID_SIZE then Some l else None
                  | _ => None end) = match id with [] => None | _ => Some id end).
  { destruct id as [| b id']; [reflexivity |].
    apply Nat.leb_le in Hid. rewrite Hid. reflexivity. }
  rewrite Hidv.
  assert (Hlab : (match match label with Some l => Some (VStr l) | None => None end with
                  | Some (VStr l) => Some l | _ => None end) = label)
    by (destruct label; reflexivity).
  rewrite Hlab.
  assert (Hc' : mkcert (e_create_handle e) (match match id with [] => None | _ => Some id end with
                                            | Some l => l | None => [] end) label
                  (if e_d2i_ok e (x_der x) then Some (x_der x) else None) = c)
    by (unfold c; destruct id; reflexivity).
  rewrite Hc'. repeat split; reflexivity.
Qed.

Lemma store_inserts_record_witness :
  fst (fst (pkcs11_store_certificate env_ok x509_S5 label_S5 [0xAB; 0xCD] (st_empty []))) = 0 /\
  snd (fst (pkcs11_store_certificate env_ok x509_S5 label_S5 [0xAB; 0xCD] (st_empty [])))
  = Some (mkcert 0x30 [0xAB; 0xCD] label_S5 (Some (x_der x509_S5))).
Proof.
  destruct (store_inserts_record env_ok x509_S5 label_S5 [0xAB; 0xCD] (st_empty []))
    as (H1 & H2 & _); try reflexivity.
  - intros [].
  - simpl. unfold PKCS11_ID_SIZE. repeat constructor.
  - split; [exact H1 | exact H2].
Defined.

(** When no session can be acquired or [C_CreateObject] fails, store
    returns -1 and neither the cache nor the token changes. *)
Theorem store_failure_unchanged e x label id s :
  e_session_ok e = false \/ e_create_rv e <> CKR_OK ->
  fst (fst (pkcs11_store_certificate e x label id s)) = -1 /\
  snd (fst (pkcs11_store_certificate e x label id s)) = None /\
  certs (snd (pkcs11_store_certificate e x label id s)) = certs s /\
  tok (snd (pkcs11_store_certificate e x label id s)) = tok s.
Proof.
  unfold pkcs11_store_certificate. intros [Hs | Hc].
  - rewrite Hs. simpl. auto.
  - destruct (e_session_ok e); simpl; [| auto].
    unfold CRYPTOKI_checkerr. rewrite (proj2 (Z.eqb_neq _ _) Hc). simpl. auto.
Qed.

Lemma store_failure_unchanged_witness :
  certs (snd (pkcs11_store_certificate env_no_session x509_S5 label_S5 [0xAB] (st_empty objs_S2)))
  = certs (st_empty objs_S2).
Proof.
  apply (store_failure_unchanged env_no_session x509_S5 label_S5 [0xAB] (st_empty objs_S2)).
  left. reflexivity.
Defined.

(** Once [C_CreateObject] has succeeded, the new object stays on the token
    whatever store returns: a failure of init-certificate afterwards is not
    rolled back on the token. *)
Theorem store_keeps_created_object e x label id s :
  e_session_ok e = true -> e_create_rv e = CKR_OK ->
  tok (snd (pkcs11_store_certificate e x label id s))
  = tok s ++ [mkobj (e_create_handle e) (store_template e x label id)].
Proof.
  intros Hs Hc. unfold pkcs11_store_certificate. rewrite Hs, Hc. simpl.
  destruct (pkcs11_init_cert e (e_create_handle e) _) as [[r ret] s'] eqn:Hi.
  apply init_cert_effect in Hi as (Ht & _). simpl in Ht. simpl. exact Ht.
Qed.

Lemma store_keeps_created_object_witness :
  fst (fst (pkcs11_store_certificate env_no_alloc x509_S5 label_S5 [0xAB] (st_empty []))) = -1 /\
  tok (snd (pkcs11_store_certificate env_no_alloc x509_S5 label_S5 [0xAB] (st_empty [])))
  = [mkobj 0x30 (store_template env_no_alloc x509_S5 label_S5 [0xAB])].
Proof.
  split; [vm_compute; reflexivity |].
  apply (store_keeps_created_object env_no_alloc x509_S5 label_S5 [0xAB] (st_empty []));
    reflexivity.
Defined.

(** ** init-certificate twice *)

(** After an init-certificate of a handle that succeeded, a second one for
    the same handle succeeds and inserts nothing. *)
Theorem init_cert_again e h s r ret s1 :
  pkcs11_init_cert e h s = (r, ret, s1) -> r = 0 ->
  pkcs11_init_cert e h s1 = (0, None, s1).
Proof.
  intros Hi Hr. apply init_cert_cases in Hi as (Ht & _ & Hcase).
  unfold pkcs11_init_cert. rewrite Ht.
  destruct Hcase as [(Hr' & _) | [(_ & _ & Hc & t & Hty & [Hne | Hh]) | (_ & Hty & _ & _ & _ & Hc)]].
  - subst. discriminate.
  - rewrite Hty, (proj2 (Z.eqb_neq _ _) Hne). reflexivity.
  - rewrite Hty. simpl.
    unfold handles in Hh. apply in_map_iff in Hh as (c & Hch & Hin).
    replace (existsb (fun c => c_handle c =? h) (certs s1)) with true;
      [destruct (negb (t =? CKC_X_509)); reflexivity |].
    symmetry. apply existsb_exists. exists c. rewrite Hc. split; [exact Hin | apply Z.eqb_eq; exact Hch].
  - rewrite Hty. simpl.
    replace (existsb (fun c => c_handle c =? h) (certs s1)) with true; [reflexivity |].
    symmetry. apply existsb_exists. exists (init_record e (tok s) h). rewrite Hc.
    split; [apply in_or_app; right; left; reflexivity | apply Z.eqb_refl].
Qed.

Lemma init_cert_again_witness :
  pkcs11_init_cert env_ok 1 (snd (pkcs11_init_cert env_ok 1 (st_empty objs_S2)))
  = (0, None, snd (pkcs11_init_cert env_ok 1 (st_empty objs_S2))).
Proof.
  apply (init_cert_again env_ok 1 (st_empty objs_S2) 0 (Some (init_record env_ok objs_S2 1)));
    [vm_compute; reflexivity | reflexivity].
Defined.

(** ** Reload *)

Lemma upd_nth_same {A} i (x : A) l : nth_error l i = Some x -> upd_nth i x l = l.
Proof.
  revert i. induction l as [| y l IH]; intros [| i] H; simpl in *; try discriminate.
  - inversion H; reflexivity.
  - rewrite IH; auto.
Qed.

Lemma Forall_upd_nth {A} (P : A -> Prop) i x l :
  Forall P l -> P x -> Forall P (upd_nth i x l).
Proof.
  revert i. induction l as [| y l IH]; intros [| i] Hl Hx; simpl; auto;
    inversion Hl; subst; constructor; auto.
Qed.

(** The cache after a reload: unchanged, or the reloaded record with a new
    handle and its other fields kept. *)
Lemma reload_certs_shape e i s :
  certs (snd (pkcs11_reload_certificate e i s)) = certs s \/
  exists c h, nth_error (certs s) i = Some c /\
    certs (snd (pkcs11_reload_certificate e i s))
    = upd_nth i (mkcert h (c_id c) (c_label c) (c_x509 c)) (certs s).
Proof.
  unfold pkcs11_reload_certificate.
  destruct (nth_error (certs s) i) as [c |] eqn:Hc; [| left; reflexivity].
  destruct (e_session_ok e); simpl; [| left; reflexivity].
  destruct (e_find_init_rv e =? CKR_OK); simpl.
  - destruct (e_find_rv e 0 =? CKR_OK); simpl.
    + destruct (matching (reload_search_parameters c) _) as [| o ms]; simpl.
      * left. destruct (CRYPTOKI_checkerr _); simpl; apply upd_nth_same; exact Hc.
      * right. exists c, (o_handle o). destruct (CRYPTOKI_checkerr _); simpl; auto.
    + left. destruct (CRYPTOKI_checkerr _); simpl; apply upd_nth_same; exact Hc.
  - left. destruct (CRYPTOKI_checkerr _); reflexivity.
Qed.

(** A reload that fails leaves the whole cache as it was, the record's
    handle included. *)
Theorem reload_failure_keeps_cache e i s :
  fst (pkcs11_reload_certificate e i s) <> 0 ->
  certs (snd (pkcs11_reload_certificate e i s)) = certs s.
Proof.
  unfold pkcs11_reload_certificate.
  destruct (nth_error (certs s) i) as [c |] eqn:Hc; [| reflexivity].
  destruct (e_session_ok e); simpl; [| reflexivity].
  destruct (e_find_init_rv e =? CKR_OK); simpl.
  - destruct (e_find_rv e 0 =? CKR_OK) eqn:Hf; simpl.
    + destruct (matching (reload_search_parameters c) _) as [| o ms]; simpl.
      * intros _. destruct (CRYPTOKI_checkerr _); simpl; apply upd_nth_same; exact Hc.
      * unfold CRYPTOKI_checkerr. rewrite Hf. simpl. congruence.
    + intros _. destruct (CRYPTOKI_checkerr _); simpl; apply upd_nth_same; exact Hc.
  - intros _. destruct (CRYPTOKI_checkerr _); reflexivity.
Qed.

Lemma reload_failure_keeps_cache_witness :
  certs (snd (pkcs11_reload_certificate env_ok 0 (mkst [rec_A] [] [])))
  = [rec_A].
Proof.
  apply (reload_failure_keeps_cache env_ok 0 (mkst [rec_A] [] [])).
  vm_compute. discriminate.
Defined.

(** ** The id-length bound *)


Lemma init_record_id_bounded e objs h :
  (c_id_len (init_record e objs h) <= PKCS11_ID_SIZE)%nat.
Proof.
  unfold init_record, c_id_len, getattr_id. simpl.
  destruct (lookup_obj objs h) as [o |]; [| simpl; unfold PKCS11_ID_SIZE; lia].
  destruct (getattr o CKA_ID) as [[] |]; simpl; unfold PKCS11_ID_SIZE; try lia.
  destruct (Nat.leb_spec (length bs) 255); simpl; lia.
Qed.

Lemma init_cert_id_bounded e h s r ret s' :
  id_len_bounded s -> pkcs11_init_cert e h s = (r, ret, s') -> id_len_bounded s'.
Proof.
  unfold id_len_bounded. intros Hs Hi. apply init_cert_cases in Hi as (_ & _ & Hcase).
  destruct Hcase as [(_ & _ & Hc & _) | [(_ & _ & Hc & _) | (_ & _ & _ & _ & _ & Hc)]];
    rewrite Hc; [exact Hs | exact Hs |].
  apply Forall_app. split; [exact Hs | constructor; [apply init_record_id_bounded | constructor]].
Qed.

(** Every public operation keeps each cached id within the
    [PKCS11_ID_SIZE] bytes of the record's [id] buffer: init-certificate
    fills it from [CKA_ID] or leaves it empty, reload keeps the id, and
    remove and destroy add nothing. *)
Theorem ops_keep_id_len_bounded e o s :
  id_len_bounded s -> id_len_bounded (run_op e o s).
Proof.
  intros Hs. destruct o as [| k | x l id | c | i |]; simpl.
  - apply (enumerate_preserves e id_len_bounded); [| | | exact Hs].
    + intros ev s0 H. unfold id_len_bounded. rewrite emit_certs. exact H.
    + intros h s0 r ret s' H Hi. eapply init_cert_id_bounded; eauto.
    + intros s0 _. constructor.
  - rewrite find_certificate_state.
    apply (enumerate_preserves e id_len_bounded); [| | | exact Hs].
    + intros ev s0 H. unfold id_len_bounded. rewrite emit_certs. exact H.
    + intros h s0 r ret s' H Hi. eapply init_cert_id_bounded; eauto.
    + intros s0 _. constructor.
  - unfold pkcs11_store_certificate.
    destruct (negb (e_session_ok e)); [exact Hs |].
    destruct (e_create_rv e =? CKR_OK).
    + destruct (pkcs11_init_cert e (e_create_handle e) _) as [[r ret] s'] eqn:Hi.
      apply init_cert_id_bounded in Hi; [| exact Hs].
      destruct (CRYPTOKI_checkerr (e_create_rv e)); exact Hi.
    + destruct (CRYPTOKI_checkerr (e_create_rv e)); exact Hs.
  - unfold id_len_bounded. rewrite remove_certificate_certs. exact Hs.
  - unfold id_len_bounded in *.
    destruct (reload_certs_shape e i s) as [Hc | (c & h & Hn & Hc)]; rewrite Hc;
      [exact Hs |].
    apply Forall_upd_nth; [exact Hs |].
    rewrite Forall_forall in Hs. apply (Hs c). eapply nth_error_In; eauto.
  - constructor.
Qed.

Lemma ops_keep_id_len_bounded_witness :
  id_len_bounded (run_op env_ok (OpReload 0) st_rotated).
Proof.
  apply ops_keep_id_len_bounded.
  unfold id_len_bounded. vm_compute. repeat constructor; discriminate.
Defined.

(** ** Find by key *)

Lemma memcmp_eq_full a b :
  length a = length b -> memcmp_eq a b (length b) = true -> a = b.
Proof.
  unfold memcmp_eq. intros Hl.
  destruct (list_eq_dec Z.eq_dec _ _) as [Heq | ]; [| discriminate]. intros _.
  rewrite firstn_all, firstn_all2 in Heq by (rewrite Hl; apply le_n). exact Heq.
Qed.

Lemma find_cert_loop_some key cs c :
  find_cert_loop key cs = Some c -> c_id c = key /\ In c cs.
Proof.
  induction cs as [| c0 cs IH]; simpl; [discriminate |].
  destruct (Nat.eqb (c_id_len c0) (length key) && memcmp_eq (c_id c0) key (length key))
    eqn:Hm.
  - intros H. inversion H; subst c0. apply andb_prop in Hm as [Hl Hc].
    apply Nat.eqb_eq in Hl. split; [apply memcmp_eq_full; assumption | left; reflexivity].
  - intros H. destruct (IH H) as [Hk Hin]. split; [exact Hk | right; exact Hin].
Qed.

Lemma find_cert_loop_cached key cs c :
  In c cs -> c_id c = key -> exists c', find_cert_loop key cs = Some c'.
Proof.
  induction cs as [| c0 cs IH]; simpl; [intros [] |].
  intros Hin Hk.
  destruct (Nat.eqb (c_id_len c0) (length key) && memcmp_eq (c_id c0) key (length key))
    eqn:Hm; [eexists; reflexivity |].
  destruct Hin as [-> | Hin]; [| apply IH; assumption].
  exfalso. subst key. unfold c_id_len, memcmp_eq in Hm.
  rewrite Nat.eqb_refl in Hm. simpl in Hm.
  destruct (list_eq_dec Z.eq_dec _ _) as [| Hne]; [discriminate | apply Hne; reflexivity].
Qed.

(** The record find-by-key returns has exactly the key's id (same length
    and same bytes) and is a record of the cache it leaves. *)
Theorem find_certificate_exact_id e key s c :
  fst (pkcs11_find_certificate e key s) = Some c ->
  c_id c = key /\ In c (certs (snd (pkcs11_find_certificate e key s))).
Proof.
  unfold pkcs11_find_certificate.
  destruct (pkcs11_enumerate_certs e s) as [rv s'].
  destruct (negb (rv =? 0)); simpl; [discriminate |].
  apply find_cert_loop_some.
Qed.

Lemma find_certificate_exact_id_witness :
  exists c, fst (pkcs11_find_certificate env_ok [2; 2] (st_empty objs_S2)) = Some c /\
    c_id c = [2; 2].
Proof.
  eexists. split; [vm_compute; reflexivity |].
  apply (find_certificate_exact_id env_ok [2; 2] (st_empty objs_S2)).
  vm_compute. reflexivity.
Defined.

(** When enumerate succeeds, a key whose id is the id of a record cached
    before the call is always found: the refresh drops no record. *)
Theorem find_certificate_finds_cached e key s c :
  fst (pkcs11_enumerate_certs e s) = 0 ->
  In c (certs s) -> c_id c = key ->
  exists c', fst (pkcs11_find_certificate e key s) = Some c'.
Proof.
  intros H Hin Hk.
  assert (Happ : exists nw, certs (snd (pkcs11_enumerate_certs e s)) = certs s ++ nw).
  { apply enumerate_ok_inv in H as (_ & _ & s1 & Hl & ->).
    pose proof (next_cert_loop_appends e (matching cert_search_attrs (tok s)) 0
                  (emit (EvFindInit cert_search_attrs) (emit (EvAcquire false) s)))
      as [_ [nw Hc]].
    rewrite Hl in Hc. exists nw. exact Hc. }
  destruct Happ as [nw Happ].
  unfold pkcs11_find_certificate.
  destruct (pkcs11_enumerate_certs e s) as [rv s']. simpl in H, Happ. subst rv. simpl.
  apply (find_cert_loop_cached key _ c); [rewrite Happ; apply in_or_app; left |]; assumption.
Qed.

Lemma find_certificate_finds_cached_witness :
  exists c', fst (pkcs11_find_certificate env_ok [1] st_rotated) = Some c'.
Proof.
  apply (find_certificate_finds_cached env_ok [1] st_rotated rec_A);
    [vm_compute; reflexivity | left; reflexivity | reflexivity].
Defined.

